(** * Restaurant tipping dashboard (app.py): filter, summaries, trend line

    A shallow embedding of the reactive core of [app.py].

    - A pandas [DataFrame] read from [tips.csv] is a list of rows, in file
      order.  A column is the list of one field of every row, a boolean
      Series is a [list bool], [&] is the element-wise conjunction and
      [tips[mask]] keeps the rows whose mask entry is [True].
    - The [float64] columns [total_bill] and [tip] hold finite values; every
      finite binary float is a rational, so they are modelled in [Q], where
      the comparisons of [between], [max] and [min] are exact.  The two
      numerical routines whose float64 results the source does not
      determine, pandas' [mean] and numpy's [polyfit], are parameters: what
      is proved holds whatever they return.  [np.linspace] is written out
      over the rationals; only the count, the ends, the order and the
      bounds of its samples are used.
    - The Shiny [input] object and the file reader form the session state;
      reactive functions are computations in a state monad over it. *)

From Stdlib Require Import QArith Qround Qabs Lqa.
From stdpp Require Import base list sorting strings pretty.

(** ** Rows and frames *)

(** One line of [tips.csv]; the fields follow the header of the file. *)
Record Row : Type := {
  total_bill : Q;
  tip : Q;
  sex : string;
  smoker : string;
  day : string;
  time : string;
  size : Z
}.

Abbreviation DataFrame := (list Row).

(** ** The [input] object: current value of every sidebar control *)

Module input.
Record t : Type := {
  total_bill : Q * Q;
  time : list string;
  sex : list string;
  smoker : list string;
  day : list string;
  size : Z * Z
}.
End input.

(** ** Session state and reactive computations *)

Record Session : Type := {
  file : DataFrame;
  inputs : input.t
}.

Definition Reactive (A : Type) : Type := Session → A * Session.

Global Instance Reactive_ret : MRet Reactive := λ A x σ, (x, σ).
Global Instance Reactive_bind : MBind Reactive :=
  λ A B f m σ, let '(a, σ') := m σ in f a σ'.

Definition get_input {A} (field : input.t → A) : Reactive A :=
  λ σ, (field (inputs σ), σ).

Definition set_inputs (f : input.t → input.t) : Reactive unit :=
  λ σ, (tt, {| file := file σ; inputs := f (inputs σ) |}).

(** [read_file()]: the frame currently parsed from [tips.csv]. *)
Definition read_file : Reactive DataFrame := λ σ, (file σ, σ).

(** ** Float helpers *)

Definition Qsum (l : list Q) : Q := foldr Qplus 0%Q l.

(** [x < y] on floats. *)
Definition Qltb (x y : Q) : bool := negb (Qle_bool y x).

(** ** pandas Series operations *)

Module Series.
(** [s.between(left, right)], both ends inclusive. *)
Definition between (left right : Q) (s : list Q) : list bool :=
  (λ x, Qle_bool left x && Qle_bool x right) <$> s.

(** The same on an [int64] column. *)
Definition between_int (left right : Z) (s : list Z) : list bool :=
  (λ x, (left <=? x)%Z && (x <=? right)%Z) <$> s.

(** [s.isin(values)]. *)
Definition isin (values : list string) (s : list string) : list bool :=
  (λ v, bool_decide (v ∈ values)) <$> s.

(** [a & b] on boolean Series. *)
Definition and (a b : list bool) : list bool := zip_with andb a b.

(** [s.max()] and [s.min()]: a scan that keeps the larger (smaller) value.
    (pandas gives NaN on an empty column; every call below is guarded by
    [shape[0] > 0].) *)
Definition max (s : list Q) : Q :=
  match s with
  | [] => 0%Q
  | x :: s' => foldl (λ m y, if Qltb m y then y else m) x s'
  end.

Definition min (s : list Q) : Q :=
  match s with
  | [] => 0%Q
  | x :: s' => foldl (λ m y, if Qltb y m then y else m) x s'
  end.
End Series.

Infix "&" := Series.and (at level 40, left associativity).

(** [df[mask]]: boolean indexing; the rows are kept in frame order. *)
Fixpoint getitem_mask (df : DataFrame) (mask : list bool) : DataFrame :=
  match df, mask with
  | r :: df', b :: mask' =>
      if b then r :: getitem_mask df' mask' else getitem_mask df' mask'
  | _, _ => []
  end.

(** ** [tips_data]: the filtered frame *)

Definition tips_data : Reactive DataFrame :=
  tips ← read_file;
  bill ← get_input input.total_bill;
  let idx1 := Series.between bill.1 bill.2 (total_bill <$> tips) in
  time_sel ← get_input input.time;
  let idx2 := Series.isin time_sel (time <$> tips) in
  sex_sel ← get_input input.sex;
  let idx3 := Series.isin sex_sel (sex <$> tips) in
  smoker_sel ← get_input input.smoker;
  let idx4 := Series.isin smoker_sel (smoker <$> tips) in
  day_sel ← get_input input.day;
  let idx5 := Series.isin day_sel (day <$> tips) in
  size_rng ← get_input input.size;
  let idx6 := Series.between_int size_rng.1 size_rng.2 (size <$> tips) in
  mret (getitem_mask tips (idx1 & idx2 & idx3 & idx4 & idx5 & idx6)).

(** The frame [tips_data()] yields when the file holds [rows] and the
    controls hold [s]. *)
Definition filtered (rows : DataFrame) (s : input.t) : DataFrame :=
  (tips_data {| file := rows; inputs := s |}).1.

(** ** [reset_filters]: the effect behind the reset button *)

Module ui.
(** [ui.update_slider(id, value=(lo, hi))]; an id without a slider is
    ignored. *)
Definition update_slider (id : string) (value : Z * Z) : Reactive unit :=
  set_inputs (λ i,
    if String.eqb id "total_bill" then
      {| input.total_bill := (inject_Z value.1, inject_Z value.2);
         input.time := input.time i; input.sex := input.sex i;
         input.smoker := input.smoker i; input.day := input.day i;
         input.size := input.size i |}
    else if String.eqb id "size" then
      {| input.total_bill := input.total_bill i;
         input.time := input.time i; input.sex := input.sex i;
         input.smoker := input.smoker i; input.day := input.day i;
         input.size := value |}
    else i).

(** [ui.update_checkbox_group(id, selected=[...])]. *)
Definition update_checkbox_group (id : string) (selected : list string)
  : Reactive unit :=
  set_inputs (λ i,
    if String.eqb id "time" then
      {| input.total_bill := input.total_bill i;
         input.time := selected; input.sex := input.sex i;
         input.smoker := input.smoker i; input.day := input.day i;
         input.size := input.size i |}
    else if String.eqb id "sex" then
      {| input.total_bill := input.total_bill i;
         input.time := input.time i; input.sex := selected;
         input.smoker := input.smoker i; input.day := input.day i;
         input.size := input.size i |}
    else if String.eqb id "smoker" then
      {| input.total_bill := input.total_bill i;
         input.time := input.time i; input.sex := input.sex i;
         input.smoker := selected; input.day := input.day i;
         input.size := input.size i |}
    else if String.eqb id "day" then
      {| input.total_bill := input.total_bill i;
         input.time := input.time i; input.sex := input.sex i;
         input.smoker := input.smoker i; input.day := selected;
         input.size := input.size i |}
    else i).
End ui.

Definition reset_filters : Reactive unit :=
  ui.update_slider "total_bill" (10, 50)%Z ;;
  ui.update_checkbox_group "time" ["Lunch"; "Dinner"] ;;
  ui.update_checkbox_group "sex" ["Male"; "Female"] ;;
  ui.update_checkbox_group "smoker" ["Yes"; "No"] ;;
  ui.update_checkbox_group "day" ["Thur"; "Fri"; "Sat"; "Sun"] ;;
  ui.update_slider "size" (1, 6)%Z.

(** The values the sidebar controls are created with. *)
Definition default_inputs : input.t := {|
  input.total_bill := (10, 50)%Q;
  input.time := ["Lunch"; "Dinner"];
  input.sex := ["Male"; "Female"];
  input.smoker := ["Yes"; "No"];
  input.day := ["Thur"; "Fri"; "Sat"; "Sun"];
  input.size := (1, 6)%Z
|}.

(** ** The six predicates of the filter, as propositions *)

Definition in_bill_range (s : input.t) (r : Row) : Prop :=
  ((input.total_bill s).1 <= total_bill r)%Q ∧
  (total_bill r <= (input.total_bill s).2)%Q.

Definition in_size_range (s : input.t) (r : Row) : Prop :=
  ((input.size s).1 ≤ size r)%Z ∧ (size r ≤ (input.size s).2)%Z.

Definition passes (s : input.t) (r : Row) : Prop :=
  in_bill_range s r ∧
  time r ∈ input.time s ∧
  sex r ∈ input.sex s ∧
  smoker r ∈ input.smoker s ∧
  day r ∈ input.day s ∧
  in_size_range s r.

(** The row mask [idx1 & ... & idx6] evaluated on one row. *)
Definition keep (s : input.t) (r : Row) : bool :=
  Qle_bool (input.total_bill s).1 (total_bill r)
  && Qle_bool (total_bill r) (input.total_bill s).2
  && bool_decide (time r ∈ input.time s)
  && bool_decide (sex r ∈ input.sex s)
  && bool_decide (smoker r ∈ input.smoker s)
  && bool_decide (day r ∈ input.day s)
  && (((input.size s).1 <=? size r)%Z && (size r <=? (input.size s).2)%Z).

Global Instance Qle_decision (x y : Q) : Decision (x <= y)%Q.
Proof.
  destruct (Qle_bool x y) eqn:E.
  - left. by apply Qle_bool_iff.
  - right. intros H. apply Qle_bool_iff in H. congruence.
Defined.

Global Instance passes_decision s r : Decision (passes s r).
Proof. unfold passes, in_bill_range, in_size_range. apply _. Defined.

(** ** Format specifications *)

(** Nearest integer, ties to even: the rounding of float formatting. *)
Definition round_half_even (q : Q) : Z :=
  let f := Qfloor q in
  match (q - inject_Z f ?= 1 # 2)%Q with
  | Lt => f
  | Gt => (f + 1)%Z
  | Eq => if Z.even f then f else (f + 1)%Z
  end.

Definition two_digits (n : Z) : string :=
  if bool_decide (n < 10)%Z then "0" +:+ pretty n else pretty n.

(** The numeral of [n] hundredths with two decimals, with or without a
    minus sign. *)
Definition cents_numeral (negative : bool) (n : Z) : string :=
  (if negative then "-" else "")
    +:+ pretty (n `div` 100)%Z +:+ "." +:+ two_digits (n `mod` 100)%Z.

(** [f"{q:.2f}"]: the sign of [q] and its magnitude rounded to hundredths. *)
Definition format_2f (q : Q) : string :=
  cents_numeral (Qltb q 0) (round_half_even (Qabs q * 100)%Q).

(** ** The four summary cards *)

Definition total_sales : Reactive string :=
  data ← tips_data;
  if bool_decide (0 < length data) then
    mret (pretty (length data) +:+ " sales")
  else mret "No data available".

Section average.
(** [data["tip"].mean()]: pandas' mean of a float64 column, taken as given.
    Its value depends on the order and the rounding of the float64
    additions inside numpy, which the source does not show. *)
Context (series_mean : list Q → Q).

Definition average_tip : Reactive string :=
  data ← tips_data;
  if bool_decide (0 < length data) then
    let avg_tip := series_mean (tip <$> data) in
    mret ("$" +:+ format_2f avg_tip)
  else mret "No data available".
End average.

Definition highest_tip : Reactive string :=
  data ← tips_data;
  if bool_decide (0 < length data) then
    let highest_tip := Series.max (tip <$> data) in
    mret ("$" +:+ format_2f highest_tip)
  else mret "No data available".

Definition lowest_tip : Reactive string :=
  data ← tips_data;
  if bool_decide (0 < length data) then
    let lowest_tip := Series.min (tip <$> data) in
    mret ("$" +:+ format_2f lowest_tip)
  else mret "No data available".

(** ** Plotly figures *)

Module go.
Record Scatter : Type := {
  x : list Q;
  y : list Q;
  mode : string;
  name : string;
  line_color : string
}.

Record Figure : Type := {
  title : string;
  labels : list (string * string);
  data : list Scatter
}.

(** [fig.add_scatter(...)]: one more trace, after the existing ones. *)
Definition add_scatter (fig : Figure) (trace : Scatter) : Figure :=
  {| title := title fig; labels := labels fig;
     data := data fig ++ [trace] |}.
End go.

Module px.
(** [px.scatter(data_frame=df, x="total_bill", y="tip", title=...,
    labels=...)]: one trace of markers. *)
Definition scatter (data_frame : DataFrame) (title : string)
    (labels : list (string * string)) : go.Figure :=
  {| go.title := title; go.labels := labels;
     go.data := [ {| go.x := total_bill <$> data_frame;
                     go.y := tip <$> data_frame;
                     go.mode := "markers"; go.name := "";
                     go.line_color := "" |} ] |}.

(** [px.scatter(title=...)]: a chart without points. *)
Definition scatter_blank (title : string) : go.Figure :=
  scatter [] title [].
End px.

(** ** numpy *)

Module np.
(** [np.linspace(start, stop, num)] with the default [endpoint=True]. *)
Definition linspace (start stop : Q) (num : nat) : list Q :=
  let div := (num - 1)%nat in
  let delta := (stop - start)%Q in
  let step := (delta / inject_Z (Z.of_nat div))%Q in
  let y := (λ i : nat, inject_Z (Z.of_nat i)) <$> seq 0 num in
  let y :=
    if bool_decide (0 < div) then
      if Qeq_bool step 0 then
        (λ v, v / inject_Z (Z.of_nat div) * delta)%Q <$> y
      else (λ v, v * step)%Q <$> y
    else (λ v, v * delta)%Q <$> y in
  let y := (λ v, v + start)%Q <$> y in
  if bool_decide (1 < num) then <[(num - 1)%nat := stop]> y else y.
End np.

(** The builtins [min] and [max] on a non-empty array: the first element,
    replaced by each later one that is strictly smaller (larger). *)
Definition py_min (l : list Q) : Q :=
  match l with
  | [] => 0%Q
  | x :: l' => foldl (λ m y, if Qltb y m then y else m) x l'
  end.

Definition py_max (l : list Q) : Q :=
  match l with
  | [] => 0%Q
  | x :: l' => foldl (λ m y, if Qltb m y then y else m) x l'
  end.

(** ** [scatter_plot] *)

Section plot.
(** [np.polyfit(x, y, 1)]: the pair (slope, intercept). *)
Context (polyfit : list Q → list Q → Q * Q).

Definition scatter_plot : Reactive go.Figure :=
  data ← tips_data;
  if bool_decide (0 < length data) then
    let fig :=
      px.scatter data "Total Bill vs Tip"
        [("total_bill", "Total Bill ($)"); ("tip", "Tip ($)")] in
    let x_vals := total_bill <$> data in
    let y_vals := tip <$> data in
    let '(slope, intercept) := polyfit x_vals y_vals in
    let line_x := np.linspace (py_min x_vals) (py_max x_vals) 100 in
    let line_y := (λ x, slope * x + intercept)%Q <$> line_x in
    let fig :=
      go.add_scatter fig
        {| go.x := line_x; go.y := line_y; go.mode := "lines";
           go.name := "Line of Best Fit"; go.line_color := "red" |} in
    mret fig
  else mret (px.scatter_blank "No data available").

(** The trace [scatter_plot] adds for the fitted line. *)
Definition fit_trace (data : DataFrame) : go.Scatter :=
  let x_vals := total_bill <$> data in
  let y_vals := tip <$> data in
  let line_x := np.linspace (py_min x_vals) (py_max x_vals) 100 in
  {| go.x := line_x;
     go.y := (λ x, (polyfit x_vals y_vals).1 * x
                   + (polyfit x_vals y_vals).2)%Q <$> line_x;
     go.mode := "lines"; go.name := "Line of Best Fit";
     go.line_color := "red" |}.
End plot.

(** ** A concrete line fit *)

(** The arithmetic mean, the covariance and the variance of columns. *)
Definition mean (l : list Q) : Q :=
  (Qsum l / inject_Z (Z.of_nat (length l)))%Q.

Definition covariance (xs ys : list Q) : Q :=
  mean (zip_with (λ x y, (x - mean xs) * (y - mean ys))%Q xs ys).

Definition variance (xs : list Q) : Q := covariance xs xs.

(** A column holds two values that differ. *)
Definition two_distinct (xs : list Q) : Prop :=
  ∃ u v, u ∈ xs ∧ v ∈ xs ∧ ¬ (u == v)%Q.

(** The closed-form line in exact arithmetic.  It stands in for [polyfit]
    where an example needs a concrete function; nothing is claimed of
    numpy through it. *)
Definition normal_equations_fit (xs ys : list Q) : Q * Q :=
  let slope := (covariance xs ys / variance xs)%Q in
  (slope, (mean ys - slope * mean xs)%Q).

(** ** What a card shows, in words *)

(** A decimal digit as a character. *)
Definition digit_char (d : Z) : Ascii.ascii :=
  Ascii.ascii_of_nat (48 + Z.to_nat d).

(** The numeral of [cents] hundredths: the integer part in decimal, a
    point, then the tens and the units of the hundredths. *)
Definition two_decimal_numeral (cents : Z) : string :=
  pretty (cents `div` 100)%Z +:+ "." +:+
  String (digit_char ((cents `mod` 100) `div` 10)%Z)
    (String (digit_char (cents `mod` 10)%Z) "").

(** [cents] is the number of hundredths nearest to the magnitude of [v],
    the even one when two are equally near. *)
Definition nearest_cents (v : Q) (cents : Z) : Prop :=
  (0 ≤ cents)%Z ∧
  (Qabs (inject_Z cents - Qabs v * 100) <= 1 # 2)%Q ∧
  ((Qabs (inject_Z cents - Qabs v * 100) == 1 # 2)%Q → Z.even cents = true).

(** [text] is the amount [v] in dollars with two decimals: a dollar sign,
    a minus sign when [v] is negative, and the numeral of the nearest
    hundredths.  A float zero carries a sign of its own, so at zero either
    form may appear. *)
Definition shows_dollars (text : string) (v : Q) : Prop :=
  ∃ cents : Z,
    nearest_cents v cents ∧
    ((0 < v)%Q → text = "$" +:+ two_decimal_numeral cents) ∧
    ((v < 0)%Q → text = "$-" +:+ two_decimal_numeral cents) ∧
    ((v == 0)%Q → text = "$" +:+ two_decimal_numeral cents ∨
                  text = "$-" +:+ two_decimal_numeral cents).

(** ** float64 arithmetic on rationals *)

(** [floor (log2 q)] for a positive [q]. *)
Definition Qlog2_floor (q : Q) : Z :=
  let e := (Z.log2 (Qnum q) - Z.log2 (Z.pos (Qden q)))%Z in
  if Qle_bool (2 ^ e) q then e else (e - 1)%Z.

(** The binary64 number nearest to [q], ties to even: a significand of 53
    bits, gradual underflow below 2^-1022.  (Magnitudes from 2^1024 on
    overflow in float64; they do not occur below.) *)
Definition f64_round (q : Q) : Q :=
  if Qeq_bool q 0 then 0%Q
  else
    let e := Z.max (Qlog2_floor (Qabs q)) (-1022) in
    let ulp := (2 ^ (e - 52))%Q in
    (inject_Z (round_half_even (q / ulp)) * ulp)%Q.

Definition f64_add (x y : Q) : Q := f64_round (x + y).
Definition f64_div (x y : Q) : Q := f64_round (x / y).

(** The float64 mean of a short column: numpy adds fewer than 8 values
    from left to right, starting at zero, and pandas divides the sum by
    the count. *)
Definition f64_mean_short (s : list Q) : Q :=
  f64_div (foldl f64_add 0%Q s) (inject_Z (Z.of_nat (length s))).

(** Two sales with tips of 1.00 and 1.01; the second tip is the binary64
    number that the text 1.01 reads as. *)
Definition row_tip_100 : Row := {|
  total_bill := 20; tip := 1; sex := "Male"; smoker := "No";
  day := "Sat"; time := "Dinner"; size := 2
|}.

Definition row_tip_101 : Row := {|
  total_bill := 20; tip := 4548635623644201 # 4503599627370496;
  sex := "Male"; smoker := "No"; day := "Sat"; time := "Dinner"; size := 2
|}.

Definition session_two_tips : Session :=
  {| file := [row_tip_100; row_tip_101]; inputs := default_inputs |}.

(** ** Sample data: the two-row scenario of the documentation *)

Definition row_sat : Row := {|
  total_bill := 20; tip := 3; sex := "Male"; smoker := "No";
  day := "Sat"; time := "Dinner"; size := 2
|}.

Definition row_sun : Row := {|
  total_bill := 30; tip := 5; sex := "Female"; smoker := "No";
  day := "Sun"; time := "Dinner"; size := 4
|}.

(** Bills from 25 to 50, everything else at its default. *)
Definition inputs_bill_25_50 : input.t := {|
  input.total_bill := (25, 50)%Q;
  input.time := ["Lunch"; "Dinner"];
  input.sex := ["Male"; "Female"];
  input.smoker := ["Yes"; "No"];
  input.day := ["Thur"; "Fri"; "Sat"; "Sun"];
  input.size := (1, 6)%Z
|}.

(** No day ticked, everything else at its default. *)
Definition inputs_no_day : input.t := {|
  input.total_bill := (10, 50)%Q;
  input.time := ["Lunch"; "Dinner"];
  input.sex := ["Male"; "Female"];
  input.smoker := ["Yes"; "No"];
  input.day := [];
  input.size := (1, 6)%Z
|}.

(** The two rows under the default controls, under bills from 25 to 50,
    and the second row alone. *)
Definition session_default : Session :=
  {| file := [row_sat; row_sun]; inputs := default_inputs |}.

Definition session_bill_25_50 : Session :=
  {| file := [row_sat; row_sun]; inputs := inputs_bill_25_50 |}.

Definition session_one_row : Session :=
  {| file := [row_sun]; inputs := default_inputs |}.

(** ** The limits the sidebar widgets are declared with *)

(** The bill slider runs from 10 to 50, the party-size slider from 1 to 6,
    and each checkbox group offers the listed choices; a control can only
    hold a value inside its widget. *)
Definition within_widgets (s : input.t) : Prop :=
  (10 <= (input.total_bill s).1)%Q ∧ ((input.total_bill s).2 <= 50)%Q ∧
  input.time s ⊆ ["Lunch"; "Dinner"] ∧
  input.sex s ⊆ ["Male"; "Female"] ∧
  input.smoker s ⊆ ["Yes"; "No"] ∧
  input.day s ⊆ ["Thur"; "Fri"; "Sat"; "Sun"] ∧
  (1 ≤ (input.size s).1)%Z ∧ ((input.size s).2 ≤ 6)%Z.

(** Two states that differ only in how a selection is listed. *)
Definition same_choices (s1 s2 : input.t) : Prop :=
  input.total_bill s1 = input.total_bill s2 ∧
  input.size s1 = input.size s2 ∧
  (∀ v, v ∈ input.time s1 ↔ v ∈ input.time s2) ∧
  (∀ v, v ∈ input.sex s1 ↔ v ∈ input.sex s2) ∧
  (∀ v, v ∈ input.smoker s1 ↔ v ∈ input.smoker s2) ∧
  (∀ v, v ∈ input.day s1 ↔ v ∈ input.day s2).

(** Days ticked in another order, one of them twice. *)
Definition inputs_days_shuffled : input.t := {|
  input.total_bill := (10, 50)%Q;
  input.time := ["Lunch"; "Dinner"];
  input.sex := ["Male"; "Female"];
  input.smoker := ["Yes"; "No"];
  input.day := ["Sun"; "Sat"; "Fri"; "Thur"; "Sun"];
  input.size := (1, 6)%Z
|}.

(** The bill slider with its ends crossed. *)
Definition inputs_bill_crossed : input.t := {|
  input.total_bill := (40, 20)%Q;
  input.time := ["Lunch"; "Dinner"];
  input.sex := ["Male"; "Female"];
  input.smoker := ["Yes"; "No"];
  input.day := ["Thur"; "Fri"; "Sat"; "Sun"];
  input.size := (1, 6)%Z
|}.

(** ** Parts of [tips_data] and single-control changes *)

(** The combined mask [idx1 & ... & idx6] that [tips_data] indexes the
    frame with. *)
Definition tips_mask (tips : DataFrame) (s : input.t) : list bool :=
  let bill := input.total_bill s in
  let idx1 := Series.between bill.1 bill.2 (total_bill <$> tips) in
  let idx2 := Series.isin (input.time s) (time <$> tips) in
  let idx3 := Series.isin (input.sex s) (sex <$> tips) in
  let idx4 := Series.isin (input.smoker s) (smoker <$> tips) in
  let idx5 := Series.isin (input.day s) (day <$> tips) in
  let idx6 :=
    Series.between_int (input.size s).1 (input.size s).2 (size <$> tips) in
  idx1 & idx2 & idx3 & idx4 & idx5 & idx6.

(** The state after the user changes the ticks of the day group only. *)
Definition with_day (selected : list string) (s : input.t) : input.t :=
  {| input.total_bill := input.total_bill s;
     input.time := input.time s; input.sex := input.sex s;
     input.smoker := input.smoker s; input.day := selected;
     input.size := input.size s |}.

(** * Proofs *)

(** * The filter *)

Section filter_engine.
Implicit Types (rows : DataFrame) (s : input.t) (r : Row) (σ : Session).

(** [tips_data] only reads the session. *)
Lemma tips_data_unfold σ :
  tips_data σ = (filtered (file σ) (inputs σ), σ).
Proof. by destruct σ. Qed.

Lemma filtered_nil s : filtered [] s = [].
Proof. done. Qed.

Lemma filtered_cons r rows s :
  filtered (r :: rows) s =
    if keep s r then r :: filtered rows s else filtered rows s.
Proof. done. Qed.

Lemma keep_passes s r : keep s r = true ↔ passes s r.
Proof.
  unfold keep, passes, in_bill_range, in_size_range.
  rewrite !andb_true_iff, !Qle_bool_iff, !bool_decide_eq_true,
    !Z.leb_le.
  tauto.
Qed.

Lemma filtered_filter rows s : filtered rows s = filter (passes s) rows.
Proof.
  induction rows as [|r rows IH]; [done|].
  rewrite filtered_cons, filter_cons, IH.
  destruct (keep s r) eqn:E.
  - rewrite decide_True; [done|]. by apply keep_passes.
  - rewrite decide_False; [done|]. rewrite <-keep_passes. congruence.
Qed.

Lemma filter_sublist_mono {A} (P1 P2 : A → Prop)
    `{!∀ x, Decision (P1 x), !∀ x, Decision (P2 x)} (l : list A) :
  (∀ x, x ∈ l → P1 x → P2 x) → filter P1 l `sublist_of` filter P2 l.
Proof.
  induction l as [|x l IH]; intros HP; [done|].
  rewrite !filter_cons.
  assert (filter P1 l `sublist_of` filter P2 l) as Hl.
  { apply IH. intros y ??. apply HP; [by right|done]. }
  destruct (decide (P1 x)) as [H1|H1].
  - rewrite decide_True by (apply HP; [by left|done]). by constructor.
  - destruct (decide (P2 x)); [by constructor|done].
Qed.

Lemma StronglySorted_fmap_S (js : list nat) :
  StronglySorted lt js → StronglySorted lt (S <$> js).
Proof.
  induction 1 as [|j js _ IH Hj]; csimpl; constructor; [done|].
  apply Forall_fmap. eapply Forall_impl; [exact Hj|].
  intros k ?; simpl; lia.
Qed.

(** A subsequence is the original list read at increasing positions. *)
Lemma sublist_positions {A} (l1 l2 : list A) :
  l1 `sublist_of` l2 →
  ∃ js : list nat,
    StronglySorted lt js ∧ Forall2 (λ j x, l2 !! j = Some x) js l1.
Proof.
  induction 1 as [|x l1 l2 _ (js & Hs & Hf)|x l1 l2 _ (js & Hs & Hf)].
  - exists []. split; constructor.
  - exists (0 :: (S <$> js)). split.
    + constructor; [by apply StronglySorted_fmap_S|].
      apply Forall_fmap, Forall_forall. intros; simpl; lia.
    + constructor; [done|]. by apply Forall2_fmap_l.
  - exists (S <$> js). split; [by apply StronglySorted_fmap_S|].
    by apply Forall2_fmap_l.
Qed.

(** ** Claims about the filter *)

(** C1: [tips_data] returns exactly the rows of the frame that satisfy
    all six predicates: the result is the frame filtered by their
    conjunction, every row in it is a row of the frame that satisfies the
    six, every row of the frame that is left out fails at least one of
    them, and the result is included in the frame. *)
Theorem tips_data_exactly_passing rows s :
  filtered rows s = filter (passes s) rows ∧
  (∀ r, r ∈ filtered rows s → r ∈ rows ∧ passes s r) ∧
  (∀ r, r ∈ rows → r ∉ filtered rows s →
     ¬ in_bill_range s r ∨ time r ∉ input.time s ∨ sex r ∉ input.sex s ∨
     smoker r ∉ input.smoker s ∨ day r ∉ input.day s ∨
     ¬ in_size_range s r) ∧
  filtered rows s ⊆ rows.
Proof.
  rewrite filtered_filter. split_and!.
  - done.
  - intros r Hr. apply list_elem_of_filter in Hr. tauto.
  - intros r Hr Hout.
    assert (¬ passes s r) as Hn.
    { intros Hp. apply Hout, list_elem_of_filter. done. }
    unfold passes in Hn.
    destruct (decide (in_bill_range s r)); [|by left].
    destruct (decide (time r ∈ input.time s)); [|by right; left].
    destruct (decide (sex r ∈ input.sex s)); [|by right; right; left].
    destruct (decide (smoker r ∈ input.smoker s));
      [|by right; right; right; left].
    destruct (decide (day r ∈ input.day s));
      [|by right; right; right; right; left].
    destruct (decide (in_size_range s r)); [|by do 5 right].
    tauto.
  - apply list_subseteq_filter.
Qed.

(** C6: when one of the four selections (time, sex, smoker, day) is
    empty, the filtered frame is empty, whatever the other controls
    hold; the result is an ordinary, empty frame. *)
Theorem tips_data_empty_selection rows s :
  input.time s = [] ∨ input.sex s = [] ∨
    input.smoker s = [] ∨ input.day s = [] →
  filtered rows s = [].
Proof.
  intros Hsel. rewrite filtered_filter.
  induction rows as [|r rows IH]; [done|].
  rewrite filter_cons_False; [done|].
  unfold passes. intros (_ & Ht & Hx & Hk & Hd & _).
  destruct Hsel as [E|[E|[E|E]]]; rewrite E in *;
    by eapply not_elem_of_nil.
Qed.

Lemma tips_data_empty_selection_witness :
  (input.time inputs_no_day = [] ∨ input.sex inputs_no_day = [] ∨
     input.smoker inputs_no_day = [] ∨ input.day inputs_no_day = []) ∧
  filtered [row_sat; row_sun] inputs_no_day = [].
Proof.
  split.
  - right; right; right; reflexivity.
  - apply tips_data_empty_selection. right; right; right; reflexivity.
Defined.

(** C7: the filtered frame keeps the order of the frame: it is a
    subsequence of it, that is, the frame read at strictly increasing
    positions, so no row of the frame is used twice. *)
Theorem tips_data_order_preserving rows s :
  filtered rows s `sublist_of` rows ∧
  ∃ js : list nat,
    StronglySorted lt js ∧
    Forall2 (λ j r, rows !! j = Some r) js (filtered rows s).
Proof.
  assert (filtered rows s `sublist_of` rows) as Hsub.
  { rewrite filtered_filter. apply sublist_filter. }
  split; [done|]. by apply sublist_positions.
Qed.

(** C8: filtering is idempotent: running [tips_data] on its own result
    with the same controls gives that result again. *)
Theorem tips_data_idempotent rows s :
  filtered (filtered rows s) s = filtered rows s.
Proof.
  rewrite !filtered_filter, list_filter_filter.
  apply list_filter_iff. tauto.
Qed.

(** C10: filtering is monotone in the controls: when both intervals of
    [s1] lie inside those of [s2] and each selection of [s1] is included
    in that of [s2], every row kept under [s1] is kept under [s2], and
    the frame filtered under [s1] is a subsequence of the frame filtered
    under [s2]. *)
Theorem tips_data_monotone rows s1 s2 :
  (∀ q : Q,
     ((input.total_bill s1).1 <= q ∧ q <= (input.total_bill s1).2)%Q →
     ((input.total_bill s2).1 <= q ∧ q <= (input.total_bill s2).2)%Q) →
  (∀ n : Z,
     ((input.size s1).1 ≤ n ∧ n ≤ (input.size s1).2)%Z →
     ((input.size s2).1 ≤ n ∧ n ≤ (input.size s2).2)%Z) →
  input.time s1 ⊆ input.time s2 →
  input.sex s1 ⊆ input.sex s2 →
  input.smoker s1 ⊆ input.smoker s2 →
  input.day s1 ⊆ input.day s2 →
  (∀ r, r ∈ filtered rows s1 → r ∈ filtered rows s2) ∧
  filtered rows s1 `sublist_of` filtered rows s2.
Proof.
  intros Hbill Hsize Ht Hx Hk Hd.
  assert (∀ r, passes s1 r → passes s2 r) as Hp.
  { intros r (Hb & ? & ? & ? & ? & Hz). unfold passes. split_and!.
    - apply Hbill, Hb.
    - by apply Ht.
    - by apply Hx.
    - by apply Hk.
    - by apply Hd.
    - apply Hsize, Hz. }
  rewrite !filtered_filter. split.
  - intros r Hr. apply list_elem_of_filter in Hr as [??].
    apply list_elem_of_filter. auto.
  - apply filter_sublist_mono. auto.
Qed.

Lemma tips_data_monotone_witness :
  (∀ r, r ∈ filtered [row_sat; row_sun] inputs_bill_25_50 →
        r ∈ filtered [row_sat; row_sun] default_inputs) ∧
  filtered [row_sat; row_sun] inputs_bill_25_50
    `sublist_of` filtered [row_sat; row_sun] default_inputs.
Proof.
  apply tips_data_monotone; simpl.
  - intros q [H1 H2]. split; lra.
  - tauto.
  - done.
  - done.
  - done.
  - done.
Defined.
End filter_engine.

(** * Session effects *)

Section effects.
Implicit Types (σ : Session).

(** C5: whatever the controls hold before, after [reset_filters] they
    hold exactly the defaults: bills 10 to 50, both service times, both
    sexes, both smoker answers, the four days, party sizes 1 to 6; the
    effect cannot fail and leaves the loaded frame alone. *)
Theorem reset_filters_default σ :
  reset_filters σ = (tt, {| file := file σ; inputs := default_inputs |}) ∧
  inputs (reset_filters σ).2 =
    {| input.total_bill := (10, 50)%Q;
       input.time := ["Lunch"; "Dinner"];
       input.sex := ["Male"; "Female"];
       input.smoker := ["Yes"; "No"];
       input.day := ["Thur"; "Fri"; "Sat"; "Sun"];
       input.size := (1, 6)%Z |}.
Proof. by destruct σ. Qed.
End effects.

(** * Summary cards *)

Section reductions.
Implicit Types (l : list Q) (x y m : Q).

Lemma Qltb_lt x y : Qltb x y = true ↔ (x < y)%Q.
Proof.
  unfold Qltb. rewrite negb_true_iff. split.
  - intros H. apply Qnot_le_lt. intros Hle.
    apply Qle_bool_iff in Hle. congruence.
  - intros H. destruct (Qle_bool y x) eqn:E; [|done].
    apply Qle_bool_iff in E. lra.
Qed.

Lemma Qltb_ge x y : Qltb x y = false ↔ (y <= x)%Q.
Proof.
  unfold Qltb. rewrite negb_false_iff. apply Qle_bool_iff.
Qed.

(** The running maximum of a left-to-right scan. *)
Lemma foldl_max_spec l x :
  let m := foldl (λ m y, if Qltb m y then y else m) x l in
  m ∈ x :: l ∧ ∀ y, y ∈ x :: l → (y <= m)%Q.
Proof.
  revert x. induction l as [|z l IH]; intros x; simpl.
  - split; [by left|]. intros y ->%list_elem_of_singleton. lra.
  - destruct (IH (if Qltb x z then z else x)) as [Hin Hub].
    pose proof (Hub _ (list_elem_of_here _ _)) as Hhd.
    destruct (Qltb x z) eqn:E.
    + apply Qltb_lt in E. split; [by right|].
      intros y [->|Hy]%elem_of_cons; [lra|by apply Hub].
    + apply Qltb_ge in E. split.
      * apply elem_of_cons in Hin as [->|Hin]; [by left|].
        by do 2 right.
      * intros y [->|[->|Hy]%elem_of_cons]%elem_of_cons; [lra|lra|].
        apply Hub. by right.
Qed.

Lemma foldl_min_spec l x :
  let m := foldl (λ m y, if Qltb y m then y else m) x l in
  m ∈ x :: l ∧ ∀ y, y ∈ x :: l → (m <= y)%Q.
Proof.
  revert x. induction l as [|z l IH]; intros x; simpl.
  - split; [by left|]. intros y ->%list_elem_of_singleton. lra.
  - destruct (IH (if Qltb z x then z else x)) as [Hin Hlb].
    pose proof (Hlb _ (list_elem_of_here _ _)) as Hhd.
    destruct (Qltb z x) eqn:E.
    + apply Qltb_lt in E. split; [by right|].
      intros y [->|Hy]%elem_of_cons; [lra|by apply Hlb].
    + apply Qltb_ge in E. split.
      * apply elem_of_cons in Hin as [->|Hin]; [by left|].
        by do 2 right.
      * intros y [->|[->|Hy]%elem_of_cons]%elem_of_cons; [lra|lra|].
        apply Hlb. by right.
Qed.

Lemma Series_max_spec l :
  l ≠ [] → Series.max l ∈ l ∧ ∀ y, y ∈ l → (y <= Series.max l)%Q.
Proof. destruct l as [|x l]; [done|]. intros _. apply foldl_max_spec. Qed.

Lemma Series_min_spec l :
  l ≠ [] → Series.min l ∈ l ∧ ∀ y, y ∈ l → (Series.min l <= y)%Q.
Proof. destruct l as [|x l]; [done|]. intros _. apply foldl_min_spec. Qed.

Lemma inject_nat_pos (n : nat) : 0 < n → (0 < inject_Z (Z.of_nat n))%Q.
Proof.
  intros Hn. change 0%Q with (inject_Z 0). rewrite <-Zlt_Qlt. lia.
Qed.

End reductions.

Local Ltac Qcompare_alt H :=
  match type of H with
  | _ = Eq => apply Qeq_alt in H
  | _ = Lt => apply Qlt_alt in H
  | _ = Gt => apply Qgt_alt in H
  end.

Section formatting.
Lemma round_half_even_near (q : Q) :
  (Qabs (inject_Z (round_half_even q) - q) <= 1 # 2)%Q.
Proof.
  unfold round_half_even.
  pose proof (Qfloor_le q) as Hlo. pose proof (Qlt_floor q) as Hhi.
  rewrite inject_Z_plus in Hhi. change (inject_Z 1) with 1%Q in Hhi.
  apply Qabs_Qle_condition.
  destruct (q - inject_Z (Qfloor q) ?= 1 # 2)%Q eqn:E.
  - apply Qeq_alt in E. destruct (Z.even (Qfloor q)).
    + split; lra.
    + rewrite inject_Z_plus. change (inject_Z 1) with 1%Q. split; lra.
  - apply Qlt_alt in E. split; lra.
  - apply Qgt_alt in E.
    rewrite inject_Z_plus. change (inject_Z 1) with 1%Q. split; lra.
Qed.

Lemma round_half_even_nonneg (q : Q) :
  (0 <= q)%Q → (0 ≤ round_half_even q)%Z.
Proof.
  intros Hq. unfold round_half_even.
  assert (0 ≤ Qfloor q)%Z as Hf by (apply (Qfloor_resp_le 0 q Hq)).
  destruct (_ ?= _)%Q; [destruct (Z.even _)|..]; lia.
Qed.

(** On a tie the rounding picks the even neighbour. *)
Lemma round_half_even_tie (q : Q) :
  (Qabs (inject_Z (round_half_even q) - q) == 1 # 2)%Q →
  Z.even (round_half_even q) = true.
Proof.
  unfold round_half_even.
  pose proof (Qfloor_le q) as Hlo. pose proof (Qlt_floor q) as Hhi.
  rewrite inject_Z_plus in Hhi. change (inject_Z 1) with 1%Q in Hhi.
  destruct (q - inject_Z (Qfloor q) ?= 1 # 2)%Q eqn:E; Qcompare_alt E.
  - intros _. destruct (Z.even (Qfloor q)) eqn:Ev; [done|].
    rewrite Z.even_add, Ev. done.
  - intros Habs. exfalso.
    rewrite Qabs_neg in Habs by lra. lra.
  - rewrite inject_Z_plus. change (inject_Z 1) with 1%Q.
    intros Habs. exfalso. rewrite Qabs_pos in Habs by lra. lra.
Qed.

Lemma two_digits_chars (k : Z) :
  (0 ≤ k < 100)%Z →
  two_digits k
    = String (digit_char (k `div` 10)) (String (digit_char (k `mod` 10)) "").
Proof.
  intros Hk.
  assert (Forall (λ k, two_digits k
                       = String (digit_char (k `div` 10))
                           (String (digit_char (k `mod` 10)) ""))
            (seqZ 0 100))
    as Hall by (apply (bool_decide_unpack _); vm_compute; exact I).
  rewrite Forall_forall in Hall. apply Hall, elem_of_seqZ. lia.
Qed.

Lemma cents_numeral_numeral (negative : bool) (n : Z) :
  cents_numeral negative n
    = (if negative then "-" else "") +:+ two_decimal_numeral n.
Proof.
  unfold cents_numeral, two_decimal_numeral.
  rewrite two_digits_chars by (apply Z.mod_pos_bound; lia).
  rewrite (Z.mod_mod_divide n 100 10) by (by exists 10%Z).
  done.
Qed.

Lemma format_2f_nearest (q : Q) :
  nearest_cents q (round_half_even (Qabs q * 100)).
Proof.
  split_and!.
  - apply round_half_even_nonneg. pose proof (Qabs_nonneg q). lra.
  - apply round_half_even_near.
  - apply round_half_even_tie.
Qed.

(** The text of [format_2f], spelled out character by character. *)
Lemma format_2f_shows (q : Q) : shows_dollars ("$" +:+ format_2f q) q.
Proof.
  exists (round_half_even (Qabs q * 100)).
  split; [apply format_2f_nearest|].
  unfold format_2f. rewrite cents_numeral_numeral.
  split_and!.
  - intros Hq. by rewrite (proj2 (Qltb_ge q 0)) by lra.
  - intros Hq. by rewrite (proj2 (Qltb_lt q 0)) by lra.
  - intros Hq. left. by rewrite (proj2 (Qltb_ge q 0)) by lra.
Qed.

Lemma sales_not_no_data (s : string) :
  s +:+ " sales" ≠ "No data available".
Proof.
  intros H.
  do 17 (destruct s as [|? s]; simpl in H;
         [discriminate H|injection H as _ H]).
  by destruct s.
Qed.

Lemma dollar_not_no_data (s : string) :
  "$" +:+ s ≠ "No data available".
Proof. discriminate. Qed.
End formatting.

Section cards.
Context (series_mean : list Q → Q).
Implicit Types (σ : Session).

Lemma total_sales_unfold σ :
  let data := filtered (file σ) (inputs σ) in
  total_sales σ =
    (if bool_decide (0 < length data)
     then pretty (length data) +:+ " sales" else "No data available", σ).
Proof.
  unfold total_sales, mbind, Reactive_bind. rewrite tips_data_unfold.
  simpl. by case_bool_decide.
Qed.

Lemma average_tip_unfold σ :
  let data := filtered (file σ) (inputs σ) in
  average_tip series_mean σ =
    (if bool_decide (0 < length data)
     then "$" +:+ format_2f (series_mean (tip <$> data))
     else "No data available", σ).
Proof.
  unfold average_tip, mbind, Reactive_bind. rewrite tips_data_unfold.
  simpl. by case_bool_decide.
Qed.

Lemma highest_tip_unfold σ :
  let data := filtered (file σ) (inputs σ) in
  highest_tip σ =
    (if bool_decide (0 < length data)
     then "$" +:+ format_2f (Series.max (tip <$> data))
     else "No data available", σ).
Proof.
  unfold highest_tip, mbind, Reactive_bind. rewrite tips_data_unfold.
  simpl. by case_bool_decide.
Qed.

Lemma lowest_tip_unfold σ :
  let data := filtered (file σ) (inputs σ) in
  lowest_tip σ =
    (if bool_decide (0 < length data)
     then "$" +:+ format_2f (Series.min (tip <$> data))
     else "No data available", σ).
Proof.
  unfold lowest_tip, mbind, Reactive_bind. rewrite tips_data_unfold.
  simpl. by case_bool_decide.
Qed.

Lemma length_pos_iff {A} (l : list A) : 0 < length l ↔ l ≠ [].
Proof. destruct l; simpl; split; (done || lia). Qed.

(** C3, as the code has it: each of the four summary cards shows "No data
    available" exactly when the filtered frame is empty.  On a non-empty
    frame the count card shows the number of rows; the highest and lowest
    cards show, in dollars with two decimals, a tip of the column that
    bounds all the others from above, respectively from below; and the
    average card shows, in dollars with two decimals, the value that
    pandas' float64 mean returns for the tip column, which need not be the
    arithmetic mean rounded to two decimals. *)
Theorem summary_cards σ :
  let data := filtered (file σ) (inputs σ) in
  let tips := tip <$> data in
  ((total_sales σ).1 = "No data available" ↔ data = []) ∧
  ((average_tip series_mean σ).1 = "No data available" ↔ data = []) ∧
  ((highest_tip σ).1 = "No data available" ↔ data = []) ∧
  ((lowest_tip σ).1 = "No data available" ↔ data = []) ∧
  (data ≠ [] →
     (total_sales σ).1 = pretty (length data) +:+ " sales" ∧
     shows_dollars (average_tip series_mean σ).1 (series_mean tips) ∧
     (∃ highest,
         highest ∈ tips ∧ (∀ t, t ∈ tips → (t <= highest)%Q) ∧
         shows_dollars (highest_tip σ).1 highest) ∧
     (∃ lowest,
         lowest ∈ tips ∧ (∀ t, t ∈ tips → (lowest <= t)%Q) ∧
         shows_dollars (lowest_tip σ).1 lowest)).
Proof.
  intros data tips.
  rewrite total_sales_unfold, average_tip_unfold, highest_tip_unfold,
    lowest_tip_unfold.
  fold data. cbn [fst].
  assert (tips ≠ [] ↔ data ≠ []) as Htips.
  { unfold tips. by destruct data. }
  case_bool_decide as Hlen; rewrite length_pos_iff in Hlen.
  - split_and!.
    + split; [|done]. intros H. by apply sales_not_no_data in H.
    + split; [|done]. intros H. by apply dollar_not_no_data in H.
    + split; [|done]. intros H. by apply dollar_not_no_data in H.
    + split; [|done]. intros H. by apply dollar_not_no_data in H.
    + intros _. apply Htips in Hlen. split_and!.
      * done.
      * apply format_2f_shows.
      * destruct (Series_max_spec tips Hlen) as [??].
        exists (Series.max tips). split_and!; [done|done|].
        apply format_2f_shows.
      * destruct (Series_min_spec tips Hlen) as [??].
        exists (Series.min tips). split_and!; [done|done|].
        apply format_2f_shows.
  - assert (data = []) as Hnil.
    { destruct data; [done|]. by destruct Hlen. }
    split_and!; done.
Qed.
End cards.

Lemma summary_cards_witness :
  filtered (file session_bill_25_50) (inputs session_bill_25_50)
    = [row_sun] ∧
  (total_sales session_bill_25_50).1 = "1 sales" ∧
  (∃ highest,
      highest ∈ [5%Q] ∧ (∀ t, t ∈ [5%Q] → (t <= highest)%Q) ∧
      shows_dollars (highest_tip session_bill_25_50).1 highest).
Proof.
  destruct (summary_cards f64_mean_short session_bill_25_50)
    as (_ & _ & _ & _ & H).
  destruct H as (Hcount & _ & Hmax & _); [done|].
  split_and!; [reflexivity|exact Hcount|exact Hmax].
Defined.

(** C3 as stated fails: for two sales with tips 1.00 and 1.01 the float64
    sum 2.01 falls below the exact sum, the float64 mean below 1.005, and
    the average card shows $1.00; the arithmetic mean of the two tips lies
    above 1.005, its nearest hundredths are 101, and $1.00 is not that
    mean to two decimals. *)
Lemma average_tip_float_mean :
  filtered (file session_two_tips) (inputs session_two_tips)
    = [row_tip_100; row_tip_101] ∧
  (average_tip f64_mean_short session_two_tips).1 = "$1.00" ∧
  (201 # 200 < mean (tip <$> file session_two_tips))%Q ∧
  nearest_cents (mean (tip <$> file session_two_tips)) 101 ∧
  ¬ shows_dollars (average_tip f64_mean_short session_two_tips).1
      (mean (tip <$> file session_two_tips)).
Proof.
  assert ((average_tip f64_mean_short session_two_tips).1 = "$1.00") as Hcard
    by (vm_compute; reflexivity).
  assert (201 # 200 < mean (tip <$> file session_two_tips))%Q as Hmean
    by (by vm_compute).
  assert (mean (tip <$> file session_two_tips) < 202 # 200)%Q as Hmean'
    by (by vm_compute).
  split_and!.
  - reflexivity.
  - exact Hcard.
  - exact Hmean.
  - split_and!.
    + lia.
    + by vm_compute.
    + intros Htie. exfalso. revert Htie. by vm_compute.
  - rewrite Hcard. intros (cents & (Hpos & Hnear & _) & Htext & _).
    specialize (Htext ltac:(lra)).
    apply Qabs_Qle_condition in Hnear.
    rewrite Qabs_pos in Hnear by lra.
    assert (inject_Z 100 < inject_Z cents)%Q as Hlo
      by (change (inject_Z 100) with 100%Q; lra).
    assert (inject_Z cents < inject_Z 102)%Q as Hhi
      by (change (inject_Z 102) with 102%Q; lra).
    rewrite <-Zlt_Qlt in Hlo, Hhi.
    assert (cents = 101%Z) as -> by lia.
    by vm_compute in Htext.
Qed.

(** * The scatter plot *)

Section scatter_plot_flow.
Context (polyfit : list Q → list Q → Q * Q).
Implicit Types (σ : Session).

Lemma scatter_plot_unfold σ :
  let data := filtered (file σ) (inputs σ) in
  scatter_plot polyfit σ =
    (if bool_decide (0 < length data) then
       go.add_scatter
         (px.scatter data "Total Bill vs Tip"
            [("total_bill", "Total Bill ($)"); ("tip", "Tip ($)")])
         (fit_trace polyfit data)
     else px.scatter_blank "No data available", σ).
Proof.
  unfold scatter_plot, mbind, Reactive_bind. rewrite tips_data_unfold.
  simpl. case_bool_decide; [|done].
  unfold fit_trace. by destruct (polyfit _ _).
Qed.

(** C2, as the code has it: the chart without points, titled "No data
    available", is returned exactly when the filtered frame is empty.
    On every non-empty frame, a single row or a single bill value
    included, the fit is asked of [polyfit] and the figure returned is
    the scatter of the rows with the fitted line added as a second trace
    of 100 points. *)
Theorem scatter_plot_blank_iff_empty σ :
  let data := filtered (file σ) (inputs σ) in
  ((scatter_plot polyfit σ).1 = px.scatter_blank "No data available"
     ↔ data = []) ∧
  (data ≠ [] →
     (scatter_plot polyfit σ).1 =
       go.add_scatter
         (px.scatter data "Total Bill vs Tip"
            [("total_bill", "Total Bill ($)"); ("tip", "Tip ($)")])
         (fit_trace polyfit data) ∧
     length (go.data (scatter_plot polyfit σ).1) = 2 ∧
     length (go.x (fit_trace polyfit data)) = 100).
Proof.
  intros data. rewrite scatter_plot_unfold. fold data. cbn [fst].
  case_bool_decide as Hlen; rewrite length_pos_iff in Hlen.
  - split; [split; [discriminate|done]|]. intros _. split_and!; try done.
    unfold fit_trace, np.linspace. cbn [go.x].
    rewrite bool_decide_true by lia. rewrite bool_decide_true by lia.
    rewrite length_insert, length_fmap.
    destruct (Qeq_bool _ _); by rewrite !length_fmap, length_seq.
  - assert (data = []) as Hnil.
    { destruct data; [done|]. by destruct Hlen. }
    done.
Qed.

End scatter_plot_flow.

Lemma scatter_plot_blank_iff_empty_witness :
  filtered (file session_bill_25_50) (inputs session_bill_25_50)
    = [row_sun] ∧
  length (go.data (scatter_plot normal_equations_fit session_bill_25_50).1)
    = 2.
Proof.
  split; [reflexivity|].
  destruct (scatter_plot_blank_iff_empty normal_equations_fit
              session_bill_25_50) as [_ H].
  destruct H as (_ & H & _); [done|exact H].
Defined.

(** C2 as stated fails: a frame of one row has a single bill value, yet
    [scatter_plot] does not return the chart without points; whatever
    [polyfit] answers, the figure is the titled scatter with a fitted-line
    trace. *)
Lemma scatter_plot_single_row_fitted :
  filtered (file session_one_row) (inputs session_one_row) = [row_sun] ∧
  ¬ two_distinct
      (total_bill <$> filtered (file session_one_row)
                        (inputs session_one_row)) ∧
  ∀ polyfit,
    (scatter_plot polyfit session_one_row).1
      ≠ px.scatter_blank "No data available" ∧
    go.title (scatter_plot polyfit session_one_row).1
      = "Total Bill vs Tip" ∧
    go.name <$> go.data (scatter_plot polyfit session_one_row).1
      = [""; "Line of Best Fit"].
Proof.
  split_and!.
  - reflexivity.
  - intros (u & v & Hu & Hv & Hne). apply Hne.
    change (total_bill <$> filtered (file session_one_row)
              (inputs session_one_row)) with [30%Q] in *.
    apply list_elem_of_singleton in Hu as ->.
    by apply list_elem_of_singleton in Hv as ->.
  - intros polyfit. rewrite scatter_plot_unfold.
    change (filtered (file session_one_row) (inputs session_one_row))
      with [row_sun].
    rewrite bool_decide_true by (simpl; lia). cbn [fst].
    split_and!; done.
Qed.

(** C9: [tips_data] leaves the session as it found it: the controls and
    every row of the loaded frame are the same after the call.  The cards
    and the plot, which only call [tips_data], leave it alone as well, and
    [reset_filters], which writes the controls, leaves the frame alone. *)
Theorem tips_data_no_side_effect (σ : Session) :
  (tips_data σ).2 = σ ∧
  inputs (tips_data σ).2 = inputs σ ∧
  file (tips_data σ).2 = file σ ∧
  (total_sales σ).2 = σ ∧
  (∀ series_mean, (average_tip series_mean σ).2 = σ) ∧
  (highest_tip σ).2 = σ ∧ (lowest_tip σ).2 = σ ∧
  (∀ polyfit, (scatter_plot polyfit σ).2 = σ) ∧
  file (reset_filters σ).2 = file σ.
Proof.
  rewrite tips_data_unfold, total_sales_unfold,
    highest_tip_unfold, lowest_tip_unfold.
  split_and!; try done.
  - intros series_mean. by rewrite average_tip_unfold.
  - intros polyfit. by rewrite scatter_plot_unfold.
Qed.

(** * The sampled line *)

Section linspace.
Implicit Types (start stop : Q) (num i : nat).

Lemma linspace_length start stop num :
  length (np.linspace start stop num) = num.
Proof.
  unfold np.linspace.
  assert (∀ l : list Q,
            length (if bool_decide (1 < num)
                    then <[(num - 1)%nat := stop]> l else l) = length l)
    as Hins.
  { intros l. case_bool_decide; [apply length_insert|done]. }
  rewrite Hins, length_fmap.
  repeat case_bool_decide;
    try match goal with
        | |- context [Qeq_bool ?u ?v] => destruct (Qeq_bool u v)
        end;
    by rewrite !length_fmap, length_seq.
Qed.

(** With [endpoint=True] the last sample is [stop] itself. *)
Lemma linspace_last start stop num :
  1 < num → np.linspace start stop num !! (num - 1)%nat = Some stop.
Proof.
  intros Hnum. pose proof (linspace_length start stop num) as Hlen.
  unfold np.linspace in *. rewrite bool_decide_true in * by done.
  rewrite length_insert in Hlen.
  apply list_lookup_insert_eq. lia.
Qed.

(** Sample [i] lies [i] steps of [(stop - start) / (num - 1)] after
    [start]. *)
Lemma linspace_lookup start stop num i :
  1 < num → i < num →
  ∃ x, np.linspace start stop num !! i = Some x ∧
       (x == start + inject_Z (Z.of_nat i)
                     * ((stop - start) / inject_Z (Z.of_nat (num - 1))))%Q.
Proof.
  intros Hnum Hi.
  assert (0 < inject_Z (Z.of_nat (num - 1)))%Q as Hdiv
    by (apply inject_nat_pos; lia).
  destruct (decide (i = (num - 1)%nat)) as [->|Hne].
  - exists stop. split; [by apply linspace_last|]. field. lra.
  - unfold np.linspace.
    rewrite (bool_decide_true (0 < num - 1)) by lia.
    rewrite (bool_decide_true (1 < num)) by done.
    rewrite list_lookup_insert_ne by done.
    destruct (Qeq_bool _ _); rewrite !list_lookup_fmap, lookup_seq_lt by done;
      eexists; (split; [reflexivity|]); simpl; field; lra.
Qed.

Lemma py_min_spec (l : list Q) :
  l ≠ [] → py_min l ∈ l ∧ ∀ x, x ∈ l → (py_min l <= x)%Q.
Proof. destruct l as [|x l]; [done|]. intros _. apply foldl_min_spec. Qed.

Lemma py_max_spec (l : list Q) :
  l ≠ [] → py_max l ∈ l ∧ ∀ x, x ∈ l → (x <= py_max l)%Q.
Proof. destruct l as [|x l]; [done|]. intros _. apply foldl_max_spec. Qed.
End linspace.

(** * Further properties of the filter *)

Section filter_algebra.
Implicit Types (rows : DataFrame) (s : input.t) (r : Row) (σ : Session).

Lemma filter_all_iff {A} (P : A → Prop) `{!∀ x, Decision (P x)}
    (l : list A) :
  filter P l = l ↔ ∀ x, x ∈ l → P x.
Proof.
  induction l as [|x l IH].
  - split; [|done]. intros _ x Hx. by apply not_elem_of_nil in Hx.
  - rewrite filter_cons. destruct (decide (P x)) as [Hx|Hx].
    + split.
      * intros [= Hl] y [->|Hy]%elem_of_cons; [done|]. by apply IH.
      * intros Hall. f_equal. apply IH. intros y Hy. apply Hall. by right.
    + split.
      * intros Hl. pose proof (length_filter P l) as Hlen.
        rewrite Hl in Hlen. simpl in Hlen. lia.
      * intros Hall. destruct Hx. apply Hall. by left.
Qed.

(** X1: the filter returns the whole frame, unchanged, exactly when every
    row of the frame satisfies the six predicates. *)
Theorem tips_data_whole_frame_iff rows s :
  filtered rows s = rows ↔ ∀ r, r ∈ rows → passes s r.
Proof. rewrite filtered_filter. apply filter_all_iff. Qed.

(** X2: filtering under one state and then under another keeps exactly
    the rows that pass under both, so the two states can be applied in
    either order. *)
Theorem tips_data_compose rows s1 s2 :
  filtered (filtered rows s1) s2
    = filter (λ r, passes s1 r ∧ passes s2 r) rows ∧
  filtered (filtered rows s1) s2 = filtered (filtered rows s2) s1.
Proof.
  rewrite !filtered_filter, !list_filter_filter. split.
  - apply list_filter_iff. tauto.
  - apply list_filter_iff. tauto.
Qed.

(** X3: the filter works row by row: on two frames put end to end it
    returns the filtered first frame followed by the filtered second, and
    it never returns more rows than it is given. *)
Theorem tips_data_app rows1 rows2 s :
  filtered (rows1 ++ rows2) s = filtered rows1 s ++ filtered rows2 s ∧
  length (filtered (rows1 ++ rows2) s) ≤ length rows1 + length rows2.
Proof.
  rewrite !filtered_filter, filter_app. split; [done|].
  rewrite length_app.
  pose proof (length_filter (passes s) rows1).
  pose proof (length_filter (passes s) rows2). lia.
Qed.

(** X4: a range whose lower end lies above its upper end, for the bill or
    for the party size, lets no row through. *)
Theorem tips_data_crossed_range rows s :
  ((input.total_bill s).2 < (input.total_bill s).1)%Q ∨
    ((input.size s).2 < (input.size s).1)%Z →
  filtered rows s = [].
Proof.
  intros Hcross. rewrite filtered_filter.
  induction rows as [|r rows IH]; [done|].
  rewrite filter_cons_False; [done|].
  intros ([Hb1 Hb2] & _ & _ & _ & _ & [Hs1 Hs2]).
  destruct Hcross as [Hq|Hz]; [lra|lia].
Qed.

Lemma tips_data_crossed_range_witness :
  filtered [row_sat; row_sun] inputs_bill_crossed = [].
Proof. apply tips_data_crossed_range. left. reflexivity. Defined.

(** X5: the filter reads each selection as a set: two states with the
    same ranges whose selections have the same members, in whatever order
    and however often listed, give the same filtered frame. *)
Theorem tips_data_selection_as_set rows s1 s2 :
  same_choices s1 s2 → filtered rows s1 = filtered rows s2.
Proof.
  intros (Hb & Hz & Ht & Hx & Hk & Hd). rewrite !filtered_filter.
  apply list_filter_iff. intros r.
  unfold passes, in_bill_range, in_size_range.
  rewrite Hb, Hz, (Ht (time r)), (Hx (sex r)), (Hk (smoker r)),
    (Hd (day r)). done.
Qed.

Lemma tips_data_selection_as_set_witness :
  filtered [row_sat; row_sun] inputs_days_shuffled
    = filtered [row_sat; row_sun] default_inputs.
Proof.
  apply tips_data_selection_as_set.
  unfold same_choices. simpl. split_and!; try done.
  intros v. rewrite !elem_of_cons, !elem_of_nil. tauto.
Defined.

Lemma passes_within_widgets s r :
  within_widgets s → passes s r → passes default_inputs r.
Proof.
  intros (Hlo & Hhi & Ht & Hx & Hk & Hd & Hz1 & Hz2).
  intros ([Hb1 Hb2] & ? & ? & ? & ? & [Hs1 Hs2]).
  unfold passes, in_bill_range, in_size_range. simpl. split_and!.
  - lra.
  - lra.
  - by apply Ht.
  - by apply Hx.
  - by apply Hk.
  - by apply Hd.
  - lia.
  - lia.
Qed.

(** X6: the default state gives the largest view a user can obtain:
    whatever the controls hold within the limits of their widgets, the
    filtered frame is a subsequence of the frame filtered under the
    defaults, and every row shown has a bill between 10 and 50 and a
    party size between 1 and 6.  A row outside these limits is never
    shown. *)
Theorem default_view_is_largest rows s :
  within_widgets s →
  filtered rows s `sublist_of` filtered rows default_inputs ∧
  ∀ r, r ∈ filtered rows s →
    (10 <= total_bill r)%Q ∧ (total_bill r <= 50)%Q ∧
    (1 ≤ size r)%Z ∧ (size r ≤ 6)%Z.
Proof.
  intros Hw. rewrite !filtered_filter. split.
  - apply filter_sublist_mono. intros r _. by apply passes_within_widgets.
  - intros r Hr. apply list_elem_of_filter in Hr as [Hp _].
    apply (passes_within_widgets s r Hw) in Hp.
    destruct Hp as ([??] & _ & _ & _ & _ & [??]). done.
Qed.

Lemma default_view_is_largest_witness :
  within_widgets inputs_bill_25_50 ∧
  filtered [row_sat; row_sun] inputs_bill_25_50
    `sublist_of` filtered [row_sat; row_sun] default_inputs.
Proof.
  assert (within_widgets inputs_bill_25_50) as Hw.
  { unfold within_widgets. simpl. split_and!; (done || lra || lia). }
  split; [exact Hw|]. by apply default_view_is_largest.
Defined.

End filter_algebra.

(** * Further properties of the summary cards *)

Section card_values.
Implicit Types (l : list Q) (q : Q) (σ : Session).

Lemma round_half_even_floor q :
  (Qfloor q ≤ round_half_even q ≤ Qfloor q + 1)%Z.
Proof.
  unfold round_half_even.
  destruct (_ ?= _)%Q; [destruct (Z.even _)|..]; lia.
Qed.

Lemma round_half_even_le (q1 q2 : Q) :
  (q1 <= q2)%Q → (round_half_even q1 ≤ round_half_even q2)%Z.
Proof.
  intros Hle. pose proof (Qfloor_resp_le q1 q2 Hle) as Hf.
  destruct (decide (Qfloor q1 = Qfloor q2)) as [E|N].
  - unfold round_half_even. rewrite <-E.
    set (f := Qfloor q1).
    destruct (q1 - inject_Z f ?= 1 # 2)%Q eqn:E1;
      destruct (q2 - inject_Z f ?= 1 # 2)%Q eqn:E2;
      Qcompare_alt E1; Qcompare_alt E2;
      destruct (Z.even f); try lia; exfalso; lra.
  - pose proof (round_half_even_floor q1).
    pose proof (round_half_even_floor q2). lia.
Qed.

(** X9: rounding to the nearest integer, ties to even, is monotone: a
    larger amount is never printed as a smaller one. *)
Theorem round_half_even_mono (q1 q2 : Q) :
  (q1 <= q2)%Q → (round_half_even q1 ≤ round_half_even q2)%Z.
Proof. apply round_half_even_le. Qed.

Lemma round_half_even_mono_witness :
  (round_half_even (249 # 100) ≤ round_half_even (5 # 2))%Z.
Proof. apply round_half_even_mono. by compute. Defined.

Lemma round_half_even_Qeq (q1 q2 : Q) :
  (q1 == q2)%Q → round_half_even q1 = round_half_even q2.
Proof.
  intros H. unfold round_half_even. rewrite (Qfloor_comp q1 q2 H).
  assert ((q1 - inject_Z (Qfloor q2) ?= 1 # 2)%Q
          = (q2 - inject_Z (Qfloor q2) ?= 1 # 2)%Q) as ->; [|done].
  apply Qcompare_comp; [by rewrite H|reflexivity].
Qed.

(** The two-decimal rendering depends on the amount only, not on
    the fraction that denotes it: equal amounts print the same text. *)
Lemma format_2f_Qeq (q1 q2 : Q) :
  (q1 == q2)%Q → format_2f q1 = format_2f q2.
Proof.
  intros H. unfold format_2f, Qltb.
  rewrite (Qleb_comp 0%Q 0%Q (Qeq_refl 0%Q) q1 q2 H).
  f_equal. apply round_half_even_Qeq. by rewrite H.
Qed.

Lemma format_2f_Qeq_witness :
  format_2f (10 # 2) = format_2f 5.
Proof. apply format_2f_Qeq. reflexivity. Defined.

Lemma format_2f_nonneg q :
  (0 <= q)%Q →
  format_2f q = cents_numeral false (round_half_even (q * 100)).
Proof.
  intros Hq. unfold format_2f.
  rewrite (proj2 (Qltb_ge q 0) Hq). f_equal.
  apply round_half_even_Qeq. by rewrite (Qabs_pos q Hq).
Qed.
End card_values.

Section card_texts.
Implicit Types (σ : Session).

Lemma Qmult_100_mono (q1 q2 : Q) : (q1 <= q2)%Q → (q1 * 100 <= q2 * 100)%Q.
Proof. intros H. lra. Qed.

Lemma format_2f_positive (q : Q) :
  (0 < q)%Q →
  format_2f q = two_decimal_numeral (round_half_even (q * 100)).
Proof.
  intros Hq. rewrite format_2f_nonneg by lra.
  by rewrite cents_numeral_numeral.
Qed.

(** X10: when every tip of a non-empty filtered frame is positive, the
    lowest-tip and the highest-tip card are in order: neither carries a
    minus sign, and the hundredths on the lowest-tip card do not exceed
    those on the highest-tip card. *)
Theorem tip_cards_ordered σ :
  let data := filtered (file σ) (inputs σ) in
  data ≠ [] →
  (∀ r, r ∈ data → (0 < tip r)%Q) →
  ∃ lo hi : Z,
    (lowest_tip σ).1 = "$" +:+ two_decimal_numeral lo ∧
    (highest_tip σ).1 = "$" +:+ two_decimal_numeral hi ∧
    (0 ≤ lo)%Z ∧ (lo ≤ hi)%Z.
Proof.
  intros data Hdata Hpos.
  set (tips := tip <$> data).
  assert (tips ≠ []) as Htips by (unfold tips; by destruct data).
  assert (0 < length data) as Hlen by (by apply length_pos_iff).
  destruct (Series_min_spec tips Htips) as [Hmin Hlb].
  destruct (Series_max_spec tips Htips) as [Hmax _].
  assert (∀ t, t ∈ tips → 0 < t)%Q as Htpos.
  { intros t (r & -> & Hr)%list_elem_of_fmap. by apply Hpos. }
  pose proof (Htpos _ Hmin) as H0. pose proof (Htpos _ Hmax) as H1.
  pose proof (Hlb _ Hmax) as Hle.
  exists (round_half_even (Series.min tips * 100)),
    (round_half_even (Series.max tips * 100)).
  rewrite lowest_tip_unfold, highest_tip_unfold.
  fold data tips. rewrite !bool_decide_true by done. cbn [fst].
  rewrite !format_2f_positive by done. split_and!; try done.
  - apply round_half_even_nonneg. lra.
  - by apply round_half_even_le, Qmult_100_mono.
Qed.

Lemma tip_cards_ordered_witness :
  ∃ lo hi : Z,
    (lowest_tip session_default).1 = "$" +:+ two_decimal_numeral lo ∧
    (highest_tip session_default).1 = "$" +:+ two_decimal_numeral hi ∧
    (0 ≤ lo)%Z ∧ (lo ≤ hi)%Z.
Proof.
  apply (tip_cards_ordered session_default); [done|].
  intros r Hr.
  change (filtered (file session_default) (inputs session_default))
    with [row_sat; row_sun] in Hr.
  apply elem_of_cons in Hr as [->|Hr];
    [|apply list_elem_of_singleton in Hr as ->]; by compute.
Defined.

(** X11: when all the tips of a non-empty filtered frame are one positive
    amount (a single row in particular), the highest-tip and the
    lowest-tip card show the same text. *)
Theorem tip_cards_coincide σ :
  let data := filtered (file σ) (inputs σ) in
  data ≠ [] →
  (∀ r, r ∈ data → (0 < tip r)%Q) →
  (∀ r1 r2, r1 ∈ data → r2 ∈ data → (tip r1 == tip r2)%Q) →
  (lowest_tip σ).1 = (highest_tip σ).1.
Proof.
  intros data Hdata _ Hsame.
  set (tips := tip <$> data).
  assert (tips ≠ []) as Htips by (unfold tips; by destruct data).
  assert (0 < length data) as Hlen by (by apply length_pos_iff).
  destruct (Series_min_spec tips Htips) as [Hmin _].
  destruct (Series_max_spec tips Htips) as [Hmax _].
  assert (Series.min tips == Series.max tips)%Q as Heq.
  { apply list_elem_of_fmap in Hmin as (r1 & -> & Hr1).
    apply list_elem_of_fmap in Hmax as (r2 & -> & Hr2). by apply Hsame. }
  rewrite lowest_tip_unfold, highest_tip_unfold.
  fold data tips. rewrite !bool_decide_true by done. cbn [fst].
  f_equal. by apply format_2f_Qeq.
Qed.

Lemma tip_cards_coincide_witness :
  (lowest_tip session_bill_25_50).1 = (highest_tip session_bill_25_50).1.
Proof.
  apply (tip_cards_coincide session_bill_25_50); [done| |];
    change (filtered (file session_bill_25_50) (inputs session_bill_25_50))
      with [row_sun].
  - intros r ->%list_elem_of_singleton. by compute.
  - intros r1 r2 ->%list_elem_of_singleton ->%list_elem_of_singleton.
    reflexivity.
Defined.

(** X12: the five outputs agree on whether there is data.  The count
    card shows "No data available" exactly when each tip card does and
    exactly when the plot is the chart without points; otherwise the
    number on the count card is the number of points of the scatter
    trace, which has as many ordinates as abscissae. *)
Theorem outputs_agree_on_no_data polyfit series_mean σ :
  let no_data := "No data available" in
  ((total_sales σ).1 = no_data
     ↔ (average_tip series_mean σ).1 = no_data) ∧
  ((total_sales σ).1 = no_data ↔ (highest_tip σ).1 = no_data) ∧
  ((total_sales σ).1 = no_data ↔ (lowest_tip σ).1 = no_data) ∧
  ((total_sales σ).1 = no_data
     ↔ (scatter_plot polyfit σ).1 = px.scatter_blank no_data) ∧
  ((total_sales σ).1 ≠ no_data →
     ∃ points,
       head (go.data (scatter_plot polyfit σ).1) = Some points ∧
       (total_sales σ).1 = pretty (length (go.x points)) +:+ " sales" ∧
       length (go.y points) = length (go.x points) ∧
       go.mode points = "markers").
Proof.
  intros no_data.
  rewrite total_sales_unfold, average_tip_unfold, highest_tip_unfold,
    lowest_tip_unfold, scatter_plot_unfold. cbn [fst].
  case_bool_decide as Hlen.
  - assert (∀ s, pretty (length (filtered (file σ) (inputs σ)))
                   +:+ " sales" = no_data ↔ "$" +:+ s = no_data) as Hno.
    { intros s. split; intros H;
        [by apply sales_not_no_data in H|by apply dollar_not_no_data in H]. }
    split_and!; try apply Hno.
    + split; [intros H; by apply sales_not_no_data in H|discriminate].
    + intros _. eexists. split; [reflexivity|]. cbn [go.x go.y go.mode].
      by rewrite !length_fmap.
  - split_and!; done.
Qed.

Lemma outputs_agree_on_no_data_witness :
  ∃ points,
    head (go.data (scatter_plot normal_equations_fit
                     session_bill_25_50).1) = Some points ∧
    (total_sales session_bill_25_50).1
      = pretty (length (go.x points)) +:+ " sales".
Proof.
  destruct (outputs_agree_on_no_data normal_equations_fit f64_mean_short
              session_bill_25_50) as (_ & _ & _ & _ & H).
  destruct H as (points & Hhead & Hcount & _); [discriminate|].
  by exists points.
Defined.

(** X13: the two-decimal rendering of an amount, after the dollar sign,
    is a minus sign when the amount is negative, then the integer part of
    its nearest hundredths (the even ones on a tie) in decimal, a point,
    and the tens digit and the units digit of the hundredths. *)
Theorem format_2f_two_decimals (q : Q) :
  shows_dollars ("$" +:+ format_2f q) q.
Proof. apply format_2f_shows. Qed.
End card_texts.

(** * Further properties of the fitted line *)

Section line_samples.
Implicit Types (start stop : Q) (num i j : nat) (data : DataFrame).

Lemma inject_nat_le (i j : nat) :
  i ≤ j → (inject_Z (Z.of_nat i) <= inject_Z (Z.of_nat j))%Q.
Proof. intros H. rewrite <-Zle_Qle. lia. Qed.

Lemma linspace_step_nonneg start stop num :
  1 < num → (start <= stop)%Q →
  (0 <= (stop - start) / inject_Z (Z.of_nat (num - 1)))%Q.
Proof.
  intros Hnum Hle. apply Qle_shift_div_l; [apply inject_nat_pos; lia|]. lra.
Qed.

(** Samples of an ascending range ascend and stay inside the range. *)
Lemma linspace_ascending start stop num i j (xi xj : Q) :
  1 < num → (start <= stop)%Q → i ≤ j →
  np.linspace start stop num !! i = Some xi →
  np.linspace start stop num !! j = Some xj →
  (start <= xi)%Q ∧ (xi <= xj)%Q ∧ (xj <= stop)%Q.
Proof.
  intros Hnum Hle Hij Hi Hj.
  pose proof (lookup_lt_Some _ _ _ Hi) as Hil.
  pose proof (lookup_lt_Some _ _ _ Hj) as Hjl.
  rewrite linspace_length in Hil, Hjl.
  destruct (linspace_lookup start stop num i Hnum Hil) as (x & Ex & Hx).
  destruct (linspace_lookup start stop num j Hnum Hjl) as (y & Ey & Hy).
  rewrite Hi in Ex. rewrite Hj in Ey.
  injection Ex as <-. injection Ey as <-.
  pose proof (linspace_step_nonneg start stop num Hnum Hle) as Hstep.
  set (t := ((stop - start) / inject_Z (Z.of_nat (num - 1)))%Q) in *.
  assert (0 < inject_Z (Z.of_nat (num - 1)))%Q as Hd
    by (apply inject_nat_pos; lia).
  assert (stop - start == inject_Z (Z.of_nat (num - 1)) * t)%Q as Hdelta.
  { unfold t. field. lra. }
  pose proof (inject_nat_le 0 i (Nat.le_0_l i)) as H0i.
  change (inject_Z (Z.of_nat 0)) with 0%Q in H0i.
  pose proof (inject_nat_le i j Hij) as Hij'.
  assert (j ≤ num - 1) as Hjd by lia.
  pose proof (inject_nat_le j (num - 1) Hjd) as Hjd'.
  pose proof (Qmult_le_0_compat _ _ H0i Hstep) as P1.
  pose proof (Qmult_le_compat_r _ _ t Hij' Hstep) as P2.
  pose proof (Qmult_le_compat_r _ _ t Hjd' Hstep) as P3.
  rewrite Hx, Hy. split_and!; lra.
Qed.

Lemma py_min_le_max (l : list Q) : l ≠ [] → (py_min l <= py_max l)%Q.
Proof.
  intros Hl. destruct (py_min_spec l Hl) as [_ Hmin].
  destruct (py_max_spec l Hl) as [Hmax _]. by apply Hmin.
Qed.

(** X14: on a non-empty frame the abscissae of the fitted line run from
    left to right and never leave the data: each sample is at least the
    smallest bill and at most the largest, and a later sample is never to
    the left of an earlier one. *)
Theorem fit_trace_within_data polyfit data i j (xi xj : Q) :
  data ≠ [] → i ≤ j →
  go.x (fit_trace polyfit data) !! i = Some xi →
  go.x (fit_trace polyfit data) !! j = Some xj →
  (py_min (total_bill <$> data) <= xi)%Q ∧ (xi <= xj)%Q ∧
  (xj <= py_max (total_bill <$> data))%Q.
Proof.
  intros Hdata Hij Hi Hj.
  assert (total_bill <$> data ≠ []) as Hne by (by destruct data).
  apply (linspace_ascending _ _ 100 i j); try done; [lia|].
  by apply py_min_le_max.
Qed.

Lemma fit_trace_within_data_witness :
  ∃ xi xj : Q,
    go.x (fit_trace normal_equations_fit [row_sat; row_sun]) !! 0
      = Some xi ∧
    go.x (fit_trace normal_equations_fit [row_sat; row_sun]) !! 99
      = Some xj ∧
    (20 <= xi)%Q ∧ (xi <= xj)%Q ∧ (xj <= 30)%Q.
Proof.
  eexists _, _. split; [reflexivity|]. split; [reflexivity|].
  apply (fit_trace_within_data normal_equations_fit [row_sat; row_sun]
           0 99); (done || lia).
Defined.


End line_samples.

(** * The mask and the day group *)

Section mask_and_groups.
Implicit Types (rows : DataFrame) (s : input.t) (r : Row).

Lemma keep_bool_decide s r : keep s r = bool_decide (passes s r).
Proof.
  destruct (keep s r) eqn:E.
  - symmetry. apply bool_decide_eq_true. by apply keep_passes.
  - symmetry. apply bool_decide_eq_false. rewrite <-keep_passes. congruence.
Qed.

Lemma tips_mask_cons r rows s :
  tips_mask (r :: rows) s = keep s r :: tips_mask rows s.
Proof. done. Qed.

(** X18: the mask [tips_data] indexes with is aligned with the frame: it
    has one entry per row, the entry of a row tells whether the row
    satisfies the six predicates, and the filtered frame is the frame
    indexed by this mask. *)
Theorem tips_mask_aligned rows s :
  filtered rows s = getitem_mask rows (tips_mask rows s) ∧
  length (tips_mask rows s) = length rows ∧
  ∀ i r, rows !! i = Some r →
    tips_mask rows s !! i = Some (bool_decide (passes s r)).
Proof.
  split_and!.
  - done.
  - induction rows as [|r rows IH]; [done|].
    rewrite tips_mask_cons. simpl. by rewrite IH.
  - induction rows as [|r0 rows IH]; intros i r Hi; [done|].
    rewrite tips_mask_cons. destruct i as [|i].
    + injection Hi as ->. simpl. by rewrite keep_bool_decide.
    + simpl in *. by apply IH.
Qed.

Lemma tips_mask_aligned_witness :
  tips_mask [row_sat; row_sun] inputs_bill_25_50 !! 1
    = Some (bool_decide (passes inputs_bill_25_50 row_sun)).
Proof.
  by apply (tips_mask_aligned [row_sat; row_sun] inputs_bill_25_50).
Defined.

Lemma filter_length_split {A} (P P1 P2 : A → Prop)
    `{!∀ x, Decision (P x), !∀ x, Decision (P1 x), !∀ x, Decision (P2 x)}
    (l : list A) :
  (∀ x, P x ↔ P1 x ∨ P2 x) → (∀ x, P1 x → P2 x → False) →
  length (filter P l) = length (filter P1 l) + length (filter P2 l).
Proof.
  intros Hor Hdisj. induction l as [|x l IH]; [done|].
  rewrite !filter_cons.
  destruct (decide (P1 x)) as [Hx1|Hx1];
    destruct (decide (P2 x)) as [Hx2|Hx2].
  - destruct (Hdisj x Hx1 Hx2).
  - rewrite decide_True by (apply Hor; by left). simpl. lia.
  - rewrite decide_True by (apply Hor; by right). simpl. lia.
  - rewrite decide_False by (rewrite Hor; tauto). done.
Qed.

(** X19: the day group splits the view: for two sets of days with no day
    in common, the rows shown with both sets ticked are as many as the
    rows shown with the first set ticked plus the rows shown with the
    second, the other five controls being the same. *)
Theorem day_groups_add_up rows s (days1 days2 : list string) :
  (∀ d, d ∈ days1 → d ∈ days2 → False) →
  length (filtered rows (with_day (days1 ++ days2) s))
    = length (filtered rows (with_day days1 s))
      + length (filtered rows (with_day days2 s)).
Proof.
  intros Hdisj. rewrite !filtered_filter.
  apply filter_length_split.
  - intros r. unfold passes, in_bill_range, in_size_range. simpl.
    rewrite elem_of_app. tauto.
  - intros r (_ & _ & _ & _ & H1 & _) (_ & _ & _ & _ & H2 & _).
    exact (Hdisj _ H1 H2).
Qed.

Lemma day_groups_add_up_witness :
  length (filtered [row_sat; row_sun]
            (with_day (["Thur"; "Fri"; "Sat"] ++ ["Sun"]) default_inputs))
    = length (filtered [row_sat; row_sun]
                (with_day ["Thur"; "Fri"; "Sat"] default_inputs))
      + length (filtered [row_sat; row_sun]
                  (with_day ["Sun"] default_inputs)).
Proof.
  apply day_groups_add_up.
  intros d Hd ->%list_elem_of_singleton.
  repeat (apply elem_of_cons in Hd as [Hd|Hd]; [discriminate Hd|]).
  by apply not_elem_of_nil in Hd.
Defined.
End mask_and_groups.
